(** * demo-error-lint: the error values of [main.go] and the queries on them

    The program under study is a single Go file, [main.go], that builds
    error values in several ways (sentinels, a structured error, wrapped
    errors) and inspects them with [==], type assertions, [errors.Is] and
    [errors.As].  This development embeds that file, together with the part
    of the Go standard library it calls ([errors], [fmt], [io], [os],
    [database/sql], [strings]), and proves the properties the specification
    states about it.

    The Makefile runs the linter through [go tool], so the toolchain is
    Go 1.24 or newer: [fmt.Errorf] accepts several [%w] verbs and
    [errors.Is] / [errors.As] walk [Unwrap() []error]. *)

From Stdlib Require Import String Ascii List NArith ZArith Bool Lia.
Import ListNotations.
Local Open Scope list_scope.
Local Open Scope string_scope.

Set Implicit Arguments.
#[local] Set Warnings "-register-all".
#[local] Set Warnings "-automation".
#[local] Set Warnings "-default".

(** ** Go values *)

(** Heap addresses.  Every error of the program except [syscall.Errno] is a
    pointer; two pointers are the same error exactly when they point to the
    same allocation. *)
Definition addr := N.

(** [syscall.Errno]: the error numbers the model of [os] can report, with
    the Linux texts of [Errno.Error]. *)
Inductive errno : Type :=
| EPERM | ENOENT | EIO | EACCES | EEXIST | EISDIR | EMFILE | ENOTEMPTY.

Definition errno_eqb (a b : errno) : bool :=
  match a, b with
  | EPERM, EPERM | ENOENT, ENOENT | EIO, EIO | EACCES, EACCES
  | EEXIST, EEXIST | EISDIR, EISDIR | EMFILE, EMFILE
  | ENOTEMPTY, ENOTEMPTY => true
  | _, _ => false
  end.

Definition errno_text (e : errno) : string :=
  match e with
  | EPERM => "operation not permitted"
  | ENOENT => "no such file or directory"
  | EIO => "input/output error"
  | EACCES => "permission denied"
  | EEXIST => "file exists"
  | EISDIR => "is a directory"
  | EMFILE => "too many open files"
  | ENOTEMPTY => "directory not empty"
  end.

(** [type NotFoundError struct { Item string }], main.go:13. *)
Record NotFoundError : Type := mkNotFoundError { Item : string }.

(** A non-nil value of Go's interface type [error]: the dynamic type is the
    constructor, the pointer is the address, and the fields of the pointee
    follow.  No error of the program is mutated after it is built, so a
    value carries its pointee with it.  A nil pointer stored in the
    interface (a typed nil) has no constructor: the program never builds
    one. *)
Inductive errval : Type :=
| errorString (p : addr) (s : string)
    (* *errors.errorString, from errors.New *)
| wrapError (p : addr) (msg : string) (err : option errval)
    (* *fmt.wrapError, from fmt.Errorf with one %w *)
| wrapErrors (p : addr) (msg : string) (errs : list errval)
    (* *fmt.wrapErrors, from fmt.Errorf with several %w *)
| ptrNotFoundError (p : addr) (v : NotFoundError)
    (* *main.NotFoundError, from &NotFoundError{...} *)
| PathError (p : addr) (Op Path : string) (Err : errval)
    (* *fs.PathError, from package os *)
| Errno (e : errno).
    (* syscall.Errno, a number, not a pointer *)

(** Go's interface type [error]; [None] is [nil]. *)
Definition error := option errval.

Definition nil {A} : option A := None.

(** The dynamic type of an error, as [reflect.TypeOf(err).String()]. *)
Inductive rtype : Type :=
| T_errorString | T_wrapError | T_wrapErrors | T_NotFoundError
| T_PathError | T_Errno.

Definition TypeOf (e : errval) : rtype :=
  match e with
  | errorString _ _ => T_errorString
  | wrapError _ _ _ => T_wrapError
  | wrapErrors _ _ _ => T_wrapErrors
  | ptrNotFoundError _ _ => T_NotFoundError
  | PathError _ _ _ _ => T_PathError
  | Errno _ => T_Errno
  end.

Definition rtype_eqb (a b : rtype) : bool :=
  match a, b with
  | T_errorString, T_errorString | T_wrapError, T_wrapError
  | T_wrapErrors, T_wrapErrors | T_NotFoundError, T_NotFoundError
  | T_PathError, T_PathError | T_Errno, T_Errno => true
  | _, _ => false
  end.

Definition rtype_String (t : rtype) : string :=
  match t with
  | T_errorString => "*errors.errorString"
  | T_wrapError => "*fmt.wrapError"
  | T_wrapErrors => "*fmt.wrapErrors"
  | T_NotFoundError => "*main.NotFoundError"
  | T_PathError => "*fs.PathError"
  | T_Errno => "syscall.Errno"
  end.

(** [a == b] on two non-nil interface values: the dynamic types are
    identical and the values are equal; for pointers that is the address,
    whatever the pointees hold. *)
Definition errval_eqb (a b : errval) : bool :=
  match a, b with
  | errorString p _, errorString q _ => N.eqb p q
  | wrapError p _ _, wrapError q _ _ => N.eqb p q
  | wrapErrors p _ _, wrapErrors q _ _ => N.eqb p q
  | ptrNotFoundError p _, ptrNotFoundError q _ => N.eqb p q
  | PathError p _ _ _, PathError q _ _ _ => N.eqb p q
  | Errno x, Errno y => errno_eqb x y
  | _, _ => false
  end.

(** [a == b] on values of type [error]. *)
Definition error_eqb (a b : error) : bool :=
  match a, b with
  | None, None => true
  | Some x, Some y => errval_eqb x y
  | _, _ => false
  end.

(** ** Package [strings] *)

Fixpoint HasPrefix (s prefix : string) : bool :=
  match prefix, s with
  | EmptyString, _ => true
  | String c p', String d s' => Ascii.eqb c d && HasPrefix s' p'
  | String _ _, EmptyString => false
  end.

(** [strings.Contains(s, substr)]. *)
Fixpoint Contains (s substr : string) : bool :=
  HasPrefix s substr ||
  match s with
  | EmptyString => false
  | String _ s' => Contains s' substr
  end.

Definition newline : string := String (ascii_of_nat 10) EmptyString.

(** ** Package [fmt]: the verbs the program uses

    Operands of a printing call, already reduced to what the printer asks
    of them: a string, an error (its dynamic type and the text of its
    [Error] method), or [nil]. *)
Inductive operand : Type :=
| OStr (s : string)
| OErr (t : rtype) (text : string)
| ONil.

(** [printArg(arg, verb)] for the verbs [v], [s] and [w].  [%w] outside
    [Errorf] on an error prints the pointee by reflection, which the model
    leaves out ([None]). *)
Definition printArg (wrapErrs : bool) (arg : operand) (verb : ascii)
  : option string :=
  let bad (what : string) :=
    "%!" ++ String verb ("(" ++ what ++ ")") in
  match arg with
  | ONil =>
      if Ascii.eqb verb "v" then Some "<nil>" else Some (bad "<nil>")
  | OStr s =>
      if Ascii.eqb verb "w" then Some (bad ("string=" ++ s)) else Some s
  | OErr _ text =>
      if Ascii.eqb verb "w" && negb wrapErrs then None else Some text
  end.

(** The tail [%!(EXTRA type=value, ...)] for operands no verb consumed. *)
Definition extraArg (arg : operand) : string :=
  match arg with
  | ONil => "<nil>"
  | OStr s => "string=" ++ s
  | OErr t text => rtype_String t ++ "=" ++ text
  end.

Fixpoint extraArgs (args : list operand) : string :=
  match args with
  | [] => ""
  | [a] => extraArg a
  | a :: rest => extraArg a ++ ", " ++ extraArgs rest
  end.

(** [doPrintf]: the text, and the operand numbers that [%w] consumed
    ([p.wrappedErrs]).  Literal text is copied; [%%] prints a percent sign;
    [%v], [%s], [%w] consume the next operand; a verb with no operand left
    prints [%!v(MISSING)]; a lone [%] at the end prints [%!(NOVERB)].
    Flags, widths, explicit operand indexes and the other verbs are outside
    the model ([None]). *)
Fixpoint doPrintf (wrapErrs : bool) (format : string) (a : list operand)
    (argNum : nat) : option (string * list nat) :=
  match format with
  | EmptyString =>
      match skipn argNum a with
      | [] => Some ("", [])
      | extra => Some ("%!(EXTRA " ++ extraArgs extra ++ ")", [])
      end
  | String "%" EmptyString =>
      match skipn argNum a with
      | [] => Some ("%!(NOVERB)", [])
      | extra => Some ("%!(NOVERB)%!(EXTRA " ++ extraArgs extra ++ ")", [])
      end
  | String "%" (String verb rest) =>
      if Ascii.eqb verb "%" then
        match doPrintf wrapErrs rest a argNum with
        | Some (s, w) => Some ("%" ++ s, w)
        | None => None
        end
      else if Ascii.eqb verb "v" || Ascii.eqb verb "s" || Ascii.eqb verb "w"
      then
        match nth_error a argNum with
        | None =>
            match doPrintf wrapErrs rest a argNum with
            | Some (s, w) =>
                Some ("%!" ++ String verb ("(MISSING)" ++ s), w)
            | None => None
            end
        | Some arg =>
            match printArg wrapErrs arg verb,
                  doPrintf wrapErrs rest a (S argNum) with
            | Some t, Some (s, w) =>
                Some (t ++ s,
                      if Ascii.eqb verb "w" then argNum :: w else w)
            | _, _ => None
            end
        end
      else None
  | String c rest =>
      match doPrintf wrapErrs rest a argNum with
      | Some (s, w) => Some (String c s, w)
      | None => None
      end
  end.

(** [fmt.Sprintf]. *)
Definition Sprintf (format : string) (a : list operand) : option string :=
  option_map fst (doPrintf false format a 0).

(** ** Package [errors] and the methods of the error types *)

(** The sentinels of the standard library the program meets, and the two of
    [main.go:22]; each is one allocation made when its package is
    initialised. *)
Definition ErrInvalidInput : errval := errorString 1%N "invalid input".
Definition ErrTimeout : errval := errorString 2%N "operation timed out".
Definition EOF : errval := errorString 3%N "EOF".
Definition ErrNoRows : errval := errorString 4%N "sql: no rows in result set".
Definition ErrPermission : errval := errorString 5%N "permission denied".
Definition ErrExist : errval := errorString 6%N "file already exists".
Definition ErrNotExist : errval := errorString 7%N "file does not exist".
Definition ErrUnsupported : errval := errorString 8%N "unsupported operation".
Definition ErrInvalid : errval := errorString 9%N "invalid argument".

(** First address left to the program once the packages are initialised. *)
Definition first_free : addr := 10%N.

Definition force (o : option string) : string :=
  match o with Some s => s | None => "" end.

(** The [Error() string] method of each error type; the [NotFoundError]
    case is [main.go:17]. *)
Fixpoint Error (e : errval) : string :=
  match e with
  | errorString _ s => s
  | wrapError _ msg _ => msg
  | wrapErrors _ msg _ => msg
  | ptrNotFoundError _ e => force (Sprintf "%s not found" [OStr (Item e)])
  | PathError _ Op Path Err => Op ++ " " ++ Path ++ ": " ++ Error Err
  | Errno e => errno_text e
  end.

(** [func (e Errno) Is(target error) bool]; the numbers that match
    [ErrUnsupported] are not among the modelled ones. *)
Definition Errno_Is (e : errno) (target : errval) : bool :=
  if errval_eqb target ErrPermission then
    errno_eqb e EACCES || errno_eqb e EPERM
  else if errval_eqb target ErrExist then
    errno_eqb e EEXIST || errno_eqb e ENOTEMPTY
  else if errval_eqb target ErrNotExist then
    errno_eqb e ENOENT
  else false.

(** The optional [Is(error) bool] method: only [Errno] has one. *)
Definition method_Is (err target : errval) : bool :=
  match err with
  | Errno e => Errno_Is e target
  | _ => false
  end.

(** [errors.Unwrap]: the [Unwrap() error] method where the type has one. *)
Definition Unwrap (err : error) : error :=
  match err with
  | Some (wrapError _ _ e) => e
  | Some (PathError _ _ _ e) => Some e
  | _ => None
  end.

(** The [Unwrap() []error] method of [*fmt.wrapErrors]. *)
Definition Unwrap_many (err : errval) : list errval :=
  match err with
  | wrapErrors _ _ errs => errs
  | _ => []
  end.

(** The loop of [errors.Is] on non-nil operands.  Every type of the model
    is comparable, so the identity test is always made. *)
Fixpoint is_ (err target : errval) {struct err} : bool :=
  errval_eqb err target
  || method_Is err target
  || match err with
     | wrapError _ _ (Some e) => is_ e target
     | wrapError _ _ None => false
     | PathError _ _ _ e => is_ e target
     | wrapErrors _ _ errs => existsb (fun e => is_ e target) errs
     | _ => false
     end.

(** [errors.Is(err, target)]. *)
Definition Is (err target : error) : bool :=
  match err, target with
  | Some e, Some t => is_ e t
  | _, _ => error_eqb err target
  end.

(** The loop of [errors.As] for a target of pointer type [*T], [T] one of
    the concrete error types: the first error of the walk whose dynamic
    type is [T].  No type of the model has an [As] method. *)
Fixpoint as_ (err : errval) (targetType : rtype) {struct err}
  : option errval :=
  if rtype_eqb (TypeOf err) targetType then Some err
  else
    match err with
    | wrapError _ _ (Some e) => as_ e targetType
    | wrapError _ _ None => None
    | PathError _ _ _ e => as_ e targetType
    | wrapErrors _ _ errs =>
        (fix first (l : list errval) : option errval :=
           match l with
           | [] => None
           | e :: l' =>
               match as_ e targetType with
               | Some v => Some v
               | None => first l'
               end
           end) errs
    | _ => None
    end.

(** [errors.As(err, &target)] with [target] of type [targetType]:
    [Some v] when it returns true, having stored [v] in [target]. *)
Definition As (err : error) (targetType : rtype) : option errval :=
  match err with
  | None => None
  | Some e => as_ e targetType
  end.

(** The errors that [errors.Is] and [errors.As] visit, in the order they
    visit them: the error itself, then what it unwraps to, depth first and
    left to right. *)
Fixpoint walk (err : errval) : list errval :=
  err ::
  match err with
  | wrapError _ _ (Some e) => walk e
  | PathError _ _ _ e => walk e
  | wrapErrors _ _ errs => flat_map walk errs
  | _ => []
  end.

(** ** Running a Go function: allocation, standard output, open files *)

Record state : Type := mkState {
  next : addr;                (* the next free heap address *)
  stdout : list string;       (* what was written, one entry per call *)
  open_files : list string    (* names of the files opened and not closed *)
}.

(** How a call ends: it returns, or it panics; [Unmodelled] marks a
    printing call whose format the model of [fmt] does not cover. *)
Inductive outcome (A : Type) : Type :=
| Returns (a : A)
| Panics (msg : string)
| Unmodelled.

Arguments Panics {A} msg.
Arguments Unmodelled {A}.

Definition M (A : Type) : Type := state -> outcome A * state.

Definition ret {A} (a : A) : M A := fun st => (Returns a, st).

Definition bind {A B} (c : M A) (k : A -> M B) : M B :=
  fun st =>
    match c st with
    | (Returns a, st') => k a st'
    | (Panics msg, st') => (Panics msg, st')
    | (Unmodelled, st') => (Unmodelled, st')
    end.

Declare Scope go_scope.
Delimit Scope go_scope with go.
Notation "x <- c ;; k" := (bind c (fun x => k))
  (at level 61, c at next level, right associativity) : go_scope.
Notation "' p <- c ;; k" := (bind c (fun x => let 'p := x in k))
  (at level 61, p pattern, c at next level, right associativity) : go_scope.
Notation "c ;; k" := (bind c (fun _ => k))
  (at level 61, right associativity) : go_scope.
Local Open Scope go_scope.

Definition panic {A} (msg : string) : M A := fun st => (Panics msg, st).

Definition unmodelled {A} : M A := fun st => (Unmodelled, st).

(** A method call on a nil interface value. *)
Definition nil_dereference : string :=
  "runtime error: invalid memory address or nil pointer dereference".

(** [defer]: the deferred call runs when the body returns and when it
    panics; the body's outcome stays. *)
Definition defer {A B} (deferred : M B) (body : M A) : M A :=
  fun st =>
    let (r, st1) := body st in
    let (_, st2) := deferred st1 in
    (r, st2).

(** A fresh allocation. *)
Definition new : M addr :=
  fun st =>
    (Returns (next st),
     mkState (N.succ (next st)) (stdout st) (open_files st)).

Definition write (s : string) : M unit :=
  fun st =>
    (Returns tt, mkState (next st) (stdout st ++ [s])%list (open_files st)).

(** The exit status of the process, from the way [main] ends. *)
Definition exit_status {A} (r : outcome A) : option Z :=
  match r with
  | Returns _ => Some 0%Z
  | Panics _ => Some 2%Z
  | Unmodelled => None
  end.

(** [errors.New]. *)
Definition New (text : string) : M error :=
  p <- new ;; ret (Some (errorString p text)).

(** A value of type [any] passed to a printing call: a string, or a value
    of type [error] (a nil [error] becomes a nil [any]). *)
Inductive any : Type :=
| AStr (s : string)
| AErr (e : error).

Definition operand_of (arg : any) : operand :=
  match arg with
  | AStr s => OStr s
  | AErr (Some e) => OErr (TypeOf e) (Error e)
  | AErr None => ONil
  end.

(** [a[argNum].(error)]. *)
Definition arg_error (a : list any) (argNum : nat) : error :=
  match nth_error a argNum with
  | Some (AErr e) => e
  | _ => None
  end.

(** The loop of [fmt.Errorf] over [p.wrappedErrs] when there are several:
    an operand number equal to the one before is skipped, and an operand
    that is not an error is left out. *)
Fixpoint wrapped (a : list any) (prev : option nat) (wrappedErrs : list nat)
  : list errval :=
  match wrappedErrs with
  | [] => []
  | argNum :: rest =>
      let same := match prev with
                  | Some j => Nat.eqb j argNum
                  | None => false
                  end in
      if same then wrapped a (Some argNum) rest
      else
        match arg_error a argNum with
        | Some e => e :: wrapped a (Some argNum) rest
        | None => wrapped a (Some argNum) rest
        end
  end.

(** [fmt.Errorf]: no [%w] gives an [*errors.errorString], one gives a
    [*fmt.wrapError], several give a [*fmt.wrapErrors]. *)
Definition Errorf (format : string) (a : list any) : M error :=
  match doPrintf true format (map operand_of a) 0 with
  | None => unmodelled
  | Some (s, wrappedErrs) =>
      match wrappedErrs with
      | [] => New s
      | [argNum] =>
          p <- new ;; ret (Some (wrapError p s (arg_error a argNum)))
      | _ =>
          p <- new ;; ret (Some (wrapErrors p s (wrapped a None wrappedErrs)))
      end
  end.

(** [printArg(arg, 'v')]. *)
Definition printV (arg : operand) : string :=
  match arg with
  | ONil => "<nil>"
  | OStr s => s
  | OErr _ text => text
  end.

Fixpoint doPrintln (a : list operand) : string :=
  match a with
  | [] => newline
  | [x] => printV x ++ newline
  | x :: rest => printV x ++ " " ++ doPrintln rest
  end.

(** [fmt.Println]. *)
Definition Println (a : list any) : M unit :=
  write (doPrintln (map operand_of a)).

(** [fmt.Printf]. *)
Definition Printf (format : string) (a : list any) : M unit :=
  match doPrintf false format (map operand_of a) 0 with
  | None => unmodelled
  | Some (s, _) => write s
  end.

(** ** Packages [os] and [io]: what the file system answers

    The operating system is a black box to the program; the model takes
    its answers as given.  [open_result name] is [None] when the file opens
    and [Some e] when the open fails with error number [e]; [read_result
    name] is what the first read of the open file reports. *)
Inductive read_outcome : Type :=
| ReadData (n : Z)      (* n bytes read, nil error *)
| ReadEOF               (* 0, io.EOF *)
| ReadError (e : errno).

Record OS : Type := mkOS {
  open_result : string -> option errno;
  read_result : string -> read_outcome
}.

Record File : Type := mkFile { name : string }.

(** [os.Open(name)]: on failure the file is nil and the error is
    [&PathError{Op: "open", Path: name, Err: e}]. *)
Definition os_Open (os : OS) (fname : string) : M (option File * error) :=
  match open_result os fname with
  | Some e =>
      p <- new ;; ret (nil, Some (PathError p "open" fname (Errno e)))
  | None =>
      fun st =>
        (Returns (Some (mkFile fname), nil),
         mkState (next st) (stdout st) (fname :: open_files st))
  end.

(** The method [Read(b)] of [*os.File]: a nil file reports [ErrInvalid];
    nil and [io.EOF] are returned as they are, any other failure as
    [&PathError{Op: "read", Path: f.name, Err: e}]. *)
Definition File_Read (os : OS) (file : option File) (b : list Byte.byte)
  : M (Z * error) :=
  match file with
  | None => ret (0%Z, Some ErrInvalid)
  | Some f =>
      match read_result os (name f) with
      | ReadData n => ret (n, nil)
      | ReadEOF => ret (0%Z, Some EOF)
      | ReadError e =>
          p <- new ;;
          ret (0%Z, Some (PathError p "read" (name f) (Errno e)))
      end
  end.

Fixpoint remove_first (x : string) (l : list string) : list string :=
  match l with
  | [] => []
  | y :: l' => if String.eqb x y then l' else y :: remove_first x l'
  end.

(** The method [Close()] of [*os.File]. *)
Definition File_Close (file : option File) : M error :=
  match file with
  | None => ret (Some ErrInvalid)
  | Some f =>
      fun st =>
        (Returns nil,
         mkState (next st) (stdout st)
                 (remove_first (name f) (open_files st)))
  end.

(** [make([]byte, n)]. *)
Definition make (n : nat) : list Byte.byte := repeat Byte.x00 n.

(** [io.Reader]: a type with a [Read] method.  A call may change the reader
    and fills the buffer; it reports the count and an error. *)
Class Reader (R : Type) : Type :=
  Read : R -> list Byte.byte -> M (R * list Byte.byte * (Z * error)).

(** A call of the [Error] method through the interface: on a nil [error]
    it is a nil dereference. *)
Definition call_Error (err : error) : M string :=
  match err with
  | None => panic nil_dereference
  | Some e => ret (Error e)
  end.

(** [p.Item] on a [*NotFoundError]. *)
Definition get_Item (p : option (addr * NotFoundError)) : M string :=
  match p with
  | None => panic nil_dereference
  | Some (_, v) => ret (Item v)
  end.

(** The type assertion of [err] to [*NotFoundError], comma-ok form. *)
Definition assert_NotFoundError (err : error)
  : option (addr * NotFoundError) * bool :=
  match err with
  | Some (ptrNotFoundError p v) => (Some (p, v), true)
  | _ => (nil, false)
  end.

(** [errors.As(err, &target)] with [target] a [*NotFoundError]: the new
    value of [target] and the result. *)
Definition As_NotFoundError (err : error)
    (target : option (addr * NotFoundError))
  : option (addr * NotFoundError) * bool :=
  match As err T_NotFoundError with
  | Some (ptrNotFoundError p v) => (Some (p, v), true)
  | _ => (target, false)
  end.

(** * The program: [main.go] *)

(** main.go:28 *)
Definition fetchData : M error :=
  ret (Some ErrInvalidInput).

(** main.go:33 *)
Definition processData : M error :=
  err <- fetchData ;;
  if negb (error_eqb err nil) then
    Errorf "failed to process data: %w" [AErr err]
  else ret nil.

(** main.go:43 *)
Definition findItem (item : string) : M error :=
  p <- new ;; ret (Some (ptrNotFoundError p (mkNotFoundError item))).

(** main.go:48 *)
Definition readFullBuffer {R} `{Reader R} (r : R) (buf : list Byte.byte)
  : M (R * list Byte.byte * (Z * error)) :=
  ' (r', buf', (n, err)) <- Read r buf ;;
  if error_eqb err (Some EOF) then ret (r', buf', (n, nil))
  else ret (r', buf', (n, err)).

(** main.go:146 *)
Definition openDbErr : M error :=
  ret (Some ErrNoRows).

(** main.go:150 *)
Definition customOperation (os : OS) : M error :=
  ' (file, err) <- os_Open os "nonexistent.txt" ;;
  if negb (error_eqb err nil) then
    Errorf "could not open file: %w" [AErr err]
  else
    defer (File_Close file)
      (let data := make 100 in
       ' (_, err) <- File_Read os file data ;;
       if negb (error_eqb err nil) && negb (error_eqb err (Some EOF)) then
         Errorf "could not read file: %w" [AErr err]
       else
         text <- call_Error err ;;
         if Contains text "permission denied" then
           Errorf "permission issue: %w" [AErr err]
         else ret nil).

(** The local variables of [main], in the order they are declared. *)
Record frame : Type := mkFrame {
  err : error;
  notFoundErr : option (addr * NotFoundError);
  ok : bool;
  notFound : option (addr * NotFoundError);
  inputErr : error;
  wrappedErr : error;
  properlyWrappedErr : error;
  err1 : error;
  err2 : error;
  combinedErr : error
}.

Definition zero_frame : frame :=
  mkFrame nil nil false nil nil nil nil nil nil nil.

Definition when (b : bool) (c : M unit) : M unit :=
  if b then c else ret tt.

(** Demo 1, main.go:59-70 *)
Definition Demo1 (f : frame) : M frame :=
  err <- fetchData ;;
  when (error_eqb err (Some ErrInvalidInput))
       (Println [AStr "Invalid input detected"]) ;;
  when (Is err (Some ErrInvalidInput))
       (Println [AStr "Invalid input detected (correctly checked)"]) ;;
  ret (mkFrame err (notFoundErr f) (ok f) (notFound f) (inputErr f)
               (wrappedErr f) (properlyWrappedErr f) (err1 f) (err2 f)
               (combinedErr f)).

(** Demo 2, main.go:72-85 *)
Definition Demo2 (f : frame) : M frame :=
  err <- findItem "document" ;;
  let '(notFoundErr, ok) := assert_NotFoundError err in
  when ok
       (item <- get_Item notFoundErr ;;
        Printf ("Not found error: %s" ++ newline) [AStr item]) ;;
  let notFound := nil in
  let '(notFound, found) := As_NotFoundError err notFound in
  when found
       (item <- get_Item notFound ;;
        Printf ("Not found error (correctly checked): %s" ++ newline)
               [AStr item]) ;;
  ret (mkFrame err notFoundErr ok notFound (inputErr f)
               (wrappedErr f) (properlyWrappedErr f) (err1 f) (err2 f)
               (combinedErr f)).

(** Demo 3, main.go:87-98 *)
Definition Demo3 (f : frame) : M frame :=
  err <- processData ;;
  (if error_eqb err (Some ErrInvalidInput) then
     Println [AStr "Invalid input"]
   else if error_eqb err (Some ErrTimeout) then
     Println [AStr "Timeout"]
   else
     Println [AStr "Unknown error"]) ;;
  ret (mkFrame err (notFoundErr f) (ok f) (notFound f) (inputErr f)
               (wrappedErr f) (properlyWrappedErr f) (err1 f) (err2 f)
               (combinedErr f)).

(** Demo 4, main.go:100-107: the type switch on the [err] of Demo 3 *)
Definition Demo4 (f : frame) : M frame :=
  match err f with
  | Some (ptrNotFoundError p v) =>
      let e := Some (p, v) in
      item <- get_Item e ;;
      Printf ("Not found: %s" ++ newline) [AStr item]
  | _ =>
      Println [AStr "Other error type"]
  end ;;
  ret f.

(** Demo 5, main.go:109-118 *)
Definition Demo5 (f : frame) : M frame :=
  inputErr <- New "input validation failed" ;;
  wrappedErr <- Errorf "operation failed: %w" [AErr inputErr] ;;
  Println [AErr wrappedErr] ;;
  properlyWrappedErr <- Errorf "operation failed: %w" [AErr inputErr] ;;
  Println [AErr properlyWrappedErr] ;;
  ret (mkFrame (err f) (notFoundErr f) (ok f) (notFound f) inputErr
               wrappedErr properlyWrappedErr (err1 f) (err2 f)
               (combinedErr f)).

(** Demo 6, main.go:120-126 *)
Definition Demo6 (f : frame) : M frame :=
  err1 <- New "first error" ;;
  err2 <- New "second error" ;;
  combinedErr <-
    Errorf "multiple errors: %w and %w" [AErr err1; AErr err2] ;;
  Println [AErr combinedErr] ;;
  ret (mkFrame (err f) (notFoundErr f) (ok f) (notFound f) (inputErr f)
               (wrappedErr f) (properlyWrappedErr f) err1 err2
               combinedErr).

(** Demo 7, main.go:128-133 *)
Definition Demo7 (f : frame) : M frame :=
  e <- openDbErr ;;
  when (error_eqb e (Some ErrNoRows))
       (Println [AStr "No rows found"]) ;;
  ret f.

(** Demo 8, main.go:135-138; its [err] is local to the [if]. *)
Definition Demo8 (os : OS) (f : frame) : M frame :=
  err <- customOperation os ;;
  when (negb (error_eqb err nil))
       (Println [AStr "Custom operation failed:"; AErr err]) ;;
  ret f.

(** The demonstrations of [main], numbered as the source numbers them. *)
Definition demos (os : OS) : list (nat * (frame -> M frame)) :=
  [(1, Demo1); (2, Demo2); (3, Demo3); (4, Demo4);
   (5, Demo5); (6, Demo6); (7, Demo7); (8, Demo8 os)]%nat.

Fixpoint run (ds : list (nat * (frame -> M frame))) (f : frame) : M frame :=
  match ds with
  | [] => ret f
  | (_, d) :: rest => f' <- d f ;; run rest f'
  end.

(** main.go:58 *)
Definition main (os : OS) : M frame :=
  run (demos os) zero_frame.

(** The state in which [main] starts. *)
Definition initial : state := mkState first_free [] [].

(** ** Outcomes of the demonstrations

    What each demonstration that ran wrote, under its number: a
    demonstration runs in the frame and state the one before left, and a
    panic ends the list. *)
Fixpoint outcomes (ds : list (nat * (frame -> M frame))) (f : frame)
    (st : state) : list (nat * list string) :=
  match ds with
  | [] => []
  | (k, d) :: rest =>
      let before := mkState (next st) [] (open_files st) in
      match d f before with
      | (Returns f', st') => (k, stdout st') :: outcomes rest f' st'
      | (_, st') => [(k, stdout st')]
      end
  end.

(** ** Readers and environments the program can meet *)

(** A reader over bytes held in memory, as [bytes.Reader]: at the end it
    reports [io.EOF]; before, it copies what fits and reports no error. *)
#[export] Instance bytes_Reader : Reader (list Byte.byte) :=
  fun r b =>
    match r with
    | [] => ret (r, b, (0%Z, Some EOF))
    | _ =>
        let n := Nat.min (length b) (length r) in
        ret (skipn n r, (firstn n r ++ skipn n b)%list, (Z.of_nat n, nil))
    end.

(** A reader that always fails with the same error, as
    [iotest.ErrReader]. *)
Record ErrReader : Type := mkErrReader { failure : error }.

#[export] Instance ErrReader_Reader : Reader ErrReader :=
  fun r b => ret (r, b, (0%Z, failure r)).

(** The file [nonexistent.txt] does not exist. *)
Definition os_absent : OS :=
  mkOS (fun _ => Some ENOENT) (fun _ => ReadEOF).

(** The file exists and holds at least five bytes. *)
Definition os_with_data : OS :=
  mkOS (fun _ => None) (fun _ => ReadData 5).

(** The file exists and is empty. *)
Definition os_empty_file : OS :=
  mkOS (fun _ => None) (fun _ => ReadEOF).

(** The file does not exist either, but the system would answer
    differently to anything else. *)
Definition os_absent' : OS :=
  mkOS (fun fname => if String.eqb fname "nonexistent.txt"
                     then Some ENOENT else None)
       (fun _ => ReadData 7).

(** The file opens, and reading it is refused. *)
Definition os_unreadable : OS :=
  mkOS (fun _ => None) (fun _ => ReadError EACCES).

(** A line of output: the text and the newline that ends it. *)
Definition line (s : string) : string := s ++ newline.

(** The lines [main] writes when the open of [nonexistent.txt] fails with
    error number [e]. *)
Definition lines_of_main (e : errno) : list string :=
  [line "Invalid input detected";
   line "Invalid input detected (correctly checked)";
   line "Not found error: document";
   line "Not found error (correctly checked): document";
   line "Unknown error";
   line "Other error type";
   line "operation failed: input validation failed";
   line "operation failed: input validation failed";
   line "multiple errors: first error and second error";
   line "No rows found";
   line ("Custom operation failed: could not open file: "
         ++ "open nonexistent.txt: " ++ errno_text e)].

(** The lines Demo 8 writes, by what the file system answers. *)
Definition lines_of_Demo8 (os : OS) : list string :=
  match open_result os "nonexistent.txt" with
  | Some e =>
      [line ("Custom operation failed: could not open file: "
             ++ "open nonexistent.txt: " ++ errno_text e)]
  | None =>
      match read_result os "nonexistent.txt" with
      | ReadError e =>
          [line ("Custom operation failed: could not read file: "
                 ++ "read nonexistent.txt: " ++ errno_text e)]
      | _ => []
      end
  end.

(** What Demos 1 to 7 write, under their numbers. *)
Definition outcomes_of_Demos_1_to_7 : list (nat * list string) :=
  [(1, [line "Invalid input detected";
        line "Invalid input detected (correctly checked)"]);
   (2, [line "Not found error: document";
        line "Not found error (correctly checked): document"]);
   (3, [line "Unknown error"]);
   (4, [line "Other error type"]);
   (5, [line "operation failed: input validation failed";
        line "operation failed: input validation failed"]);
   (6, [line "multiple errors: first error and second error"]);
   (7, [line "No rows found"])]%nat.

(** The text of an outcome: what its demonstration wrote, byte after
    byte. *)
Definition text_of (o : nat * list string) : string :=
  String.concat "" (snd o).

(** The end-to-end property in the words of the specification, for the run
    of [main] in the environment [os] from the state [st]: eight outcomes,
    one for each demonstration, numbered 1 to 8 in this order, each with
    text; they are what [main] writes; the exit status is 0. *)
Definition eight_outcomes_exit_0 (os : OS) (st : state) : Prop :=
  let out := outcomes (demos os) zero_frame st in
  map fst out = [1; 2; 3; 4; 5; 6; 7; 8]%nat
  /\ Forall (fun o => text_of o <> "") out
  /\ stdout (snd (main os st)) = (stdout st ++ concat (map snd out))%list
  /\ exit_status (fst (main os st)) = Some 0%Z.

(** * Properties *)

(** Runs a straight-line piece of the program on a symbolic state; the
    lines written come out as successive appends, which are regrouped. *)
Ltac go_run :=
  intros; cbn; rewrite <- ?app_assoc; cbn; reflexivity.

(** ** Identity and traversal *)

Lemma errno_eqb_refl (e : errno) : errno_eqb e e = true.
Proof. destruct e; reflexivity. Qed.

Lemma errval_eqb_refl (e : errval) : errval_eqb e e = true.
Proof. destruct e; simpl; auto using N.eqb_refl, errno_eqb_refl. Qed.

Lemma errval_eqb_sym (a b : errval) : errval_eqb a b = errval_eqb b a.
Proof.
  destruct a, b; simpl; auto using N.eqb_sym.
  destruct e, e0; reflexivity.
Qed.

(** Identity looks at the dynamic type first: errors of different types
    are never the same error. *)
Lemma errval_eqb_TypeOf (a b : errval) :
  errval_eqb a b = true -> TypeOf a = TypeOf b.
Proof. destruct a, b; simpl; congruence. Qed.

Lemma is_refl (e : errval) : is_ e e = true.
Proof. destruct e; simpl; rewrite ?N.eqb_refl, ?errno_eqb_refl; reflexivity. Qed.

(** One step of [errors.Is] through a [*fmt.wrapError]. *)
Lemma is_wrapError (p : addr) (msg : string) (e t : errval) :
  is_ (wrapError p msg (Some e)) t
  = errval_eqb (wrapError p msg (Some e)) t || is_ e t.
Proof. simpl. rewrite orb_false_r. reflexivity. Qed.

(** Wrapping keeps what [errors.Is] found in the cause. *)
Lemma is_wrapError_cause (p : addr) (msg : string) (e t : errval) :
  is_ e t = true -> is_ (wrapError p msg (Some e)) t = true.
Proof. intros H. rewrite is_wrapError, H. apply orb_true_r. Qed.

(** The text of a [NotFoundError], as [Sprintf] builds it. *)
Lemma NotFoundError_Error (p : addr) (x : string) :
  Error (ptrNotFoundError p (mkNotFoundError x)) = x ++ " not found".
Proof. reflexivity. Qed.

(** ** The error producers *)

(** What [processData] returns: a fresh [*fmt.wrapError] whose cause is the
    sentinel that [fetchData] returned. *)
Lemma processData_returns (st : state) :
  processData st
  = (Returns (Some (wrapError (next st)
                       "failed to process data: invalid input"
                       (Some ErrInvalidInput))),
     mkState (N.succ (next st)) (stdout st) (open_files st)).
Proof. reflexivity. Qed.

(** C1.  Every error that [fetchData] produces satisfies
    [errors.Is(err, ErrInvalidInput)]: both the sentinel as [fetchData]
    returns it, and the error [processData] builds by wrapping it with a
    formatted message. *)
Theorem fetchData_Is_ErrInvalidInput (st : state) :
  (exists e,
      fetchData st = (Returns e, st)
      /\ e = Some ErrInvalidInput
      /\ Is e (Some ErrInvalidInput) = true)
  /\ (exists e st',
         processData st = (Returns e, st')
         /\ Unwrap e = Some ErrInvalidInput
         /\ error_eqb e (Some ErrInvalidInput) = false
         /\ Is e (Some ErrInvalidInput) = true).
Proof.
  split.
  - exists (Some ErrInvalidInput). repeat split.
  - eexists. eexists. split; [apply processData_returns|].
    repeat split.
Qed.

(** What Demo 3 does: [err] becomes the error of [processData] and one
    line is written. *)
Lemma Demo3_returns (f : frame) (st : state) :
  Demo3 f st
  = (Returns (mkFrame
                (Some (wrapError (next st)
                         "failed to process data: invalid input"
                         (Some ErrInvalidInput)))
                (notFoundErr f) (ok f) (notFound f) (inputErr f)
                (wrappedErr f) (properlyWrappedErr f) (err1 f) (err2 f)
                (combinedErr f)),
     mkState (N.succ (next st))
             (stdout st ++ [line "Unknown error"])%list
             (open_files st)).
Proof. reflexivity. Qed.

(** C3.  In Demo 3 the switch on the error value, applied to the wrapped
    error of [processData], matches neither [ErrInvalidInput] nor
    [ErrTimeout] and takes the default branch, which prints the
    unknown-error line: a wrapped error is never identical to a sentinel,
    although [errors.Is] finds [ErrInvalidInput] inside it. *)
Theorem Demo3_takes_default (f : frame) (st : state) :
  exists f' st',
    Demo3 f st = (Returns f', st')
    /\ error_eqb (err f') (Some ErrInvalidInput) = false
    /\ error_eqb (err f') (Some ErrTimeout) = false
    /\ stdout st' = (stdout st ++ [line "Unknown error"])%list
    /\ Is (err f') (Some ErrInvalidInput) = true
    /\ (forall p msg cause q s,
           errval_eqb (wrapError p msg cause) (errorString q s) = false).
Proof.
  eexists. eexists. split; [apply Demo3_returns|].
  repeat split.
Qed.

(** C5.  For every string [x], the error of [findItem x] is recovered by
    [errors.As] with a [*NotFoundError] target, and the [Item] of the
    recovered value is [x]. *)
Theorem findItem_As_Item (x : string) (st : state) :
  exists e st' p v,
    findItem x st = (Returns e, st')
    /\ As_NotFoundError e nil = (Some (p, v), true)
    /\ Item v = x
    /\ e = Some (ptrNotFoundError p v).
Proof.
  exists (Some (ptrNotFoundError (next st) (mkNotFoundError x))).
  eexists. exists (next st), (mkNotFoundError x).
  repeat split.
Qed.

(** C7.  The error of [openDbErr] is identical ([==]) to [sql.ErrNoRows],
    so Demo 7 takes its branch and prints the no-rows line. *)
Theorem openDbErr_is_ErrNoRows (f : frame) (st : state) :
  (exists e,
      openDbErr st = (Returns e, st)
      /\ error_eqb e (Some ErrNoRows) = true
      /\ e = Some ErrNoRows)
  /\ Demo7 f st
     = (Returns f,
        mkState (next st) (stdout st ++ [line "No rows found"])%list
                (open_files st)).
Proof.
  split.
  - exists (Some ErrNoRows). repeat split.
  - reflexivity.
Qed.

(** ** Wrapping: Demo 5 and Demo 6 *)

(** What Demo 5 does: three allocations, two lines. *)
Lemma Demo5_returns (f : frame) (st : state) :
  let cause := errorString (next st) "input validation failed" in
  Demo5 f st
  = (Returns (mkFrame (err f) (notFoundErr f) (ok f) (notFound f)
                (Some cause)
                (Some (wrapError (N.succ (next st))
                         "operation failed: input validation failed"
                         (Some cause)))
                (Some (wrapError (N.succ (N.succ (next st)))
                         "operation failed: input validation failed"
                         (Some cause)))
                (err1 f) (err2 f) (combinedErr f)),
     mkState (N.succ (N.succ (N.succ (next st))))
             (stdout st
              ++ [line "operation failed: input validation failed";
                  line "operation failed: input validation failed"])%list
             (open_files st)).
Proof. go_run. Qed.

(** [fmt.Errorf] with [%w] keeps the cause: [errors.Unwrap] gives it back
    and [errors.Is] finds it. *)
Lemma Errorf_w_keeps_cause (cause : errval) (st : state) :
  exists e st',
    Errorf "operation failed: %w" [AErr (Some cause)] st = (Returns e, st')
    /\ Unwrap e = Some cause
    /\ Is e (Some cause) = true.
Proof.
  eexists. eexists. split; [reflexivity|]. split; [reflexivity|].
  unfold Is. apply is_wrapError_cause, is_refl.
Qed.

(** [fmt.Errorf] with [%v] keeps the text only: the result is a fresh
    [*errors.errorString], nothing unwraps from it, and [errors.Is] is
    left with the identity of the new error. *)
Lemma Errorf_v_loses_cause (cause : errval) (st : state) :
  exists e st',
    Errorf "operation failed: %v" [AErr (Some cause)] st = (Returns e, st')
    /\ e = Some (errorString (next st)
                   ("operation failed: " ++ (Error cause ++ "")))
    /\ Unwrap e = nil
    /\ (forall t, Is e (Some t) = error_eqb e (Some t)).
Proof.
  eexists. eexists. split; [reflexivity|]. split; [reflexivity|].
  split; [reflexivity|].
  intros t. simpl. rewrite !orb_false_r. reflexivity.
Qed.

(** C2 (the code departs from it).  Demo 5 builds both of its errors with
    the directive [%w]: each of them unwraps to [inputErr] and
    [errors.Is] finds [inputErr] in each, so the two errors do not differ
    in what traversal recovers. *)
Theorem Demo5_both_errors_keep_the_cause (f : frame) (st : state) :
  exists f' st' cause,
    Demo5 f st = (Returns f', st')
    /\ inputErr f' = Some cause
    /\ Unwrap (wrappedErr f') = Some cause
    /\ Unwrap (properlyWrappedErr f') = Some cause
    /\ Is (wrappedErr f') (inputErr f') = true
    /\ Is (properlyWrappedErr f') (inputErr f') = true.
Proof.
  eexists. eexists. eexists. split; [apply Demo5_returns|].
  cbn [inputErr wrappedErr properlyWrappedErr Unwrap Is].
  repeat split; apply is_wrapError_cause, is_refl.
Qed.

(** What Demo 6 does: three allocations, one line. *)
Lemma Demo6_returns (f : frame) (st : state) :
  let first := errorString (next st) "first error" in
  let second := errorString (N.succ (next st)) "second error" in
  Demo6 f st
  = (Returns (mkFrame (err f) (notFoundErr f) (ok f) (notFound f)
                (inputErr f) (wrappedErr f) (properlyWrappedErr f)
                (Some first) (Some second)
                (Some (wrapErrors (N.succ (N.succ (next st)))
                         "multiple errors: first error and second error"
                         [first; second]))),
     mkState (N.succ (N.succ (N.succ (next st))))
             (stdout st
              ++ [line "multiple errors: first error and second error"])%list
             (open_files st)).
Proof. go_run. Qed.

Lemma N_eqb_succ (n : N) : N.eqb n (N.succ n) = false.
Proof. apply N.eqb_neq. lia. Qed.

(** [errors.Is] finds exactly what the walk visits: an error of the walk
    that is the target, or whose [Is] method accepts it. *)
Lemma existsb_flat_map {A B} (p : B -> bool) (g : A -> list B) (l : list A) :
  existsb p (flat_map g l) = existsb (fun a => existsb p (g a)) l.
Proof.
  induction l as [|a l IH]; simpl; [reflexivity|].
  rewrite existsb_app, IH. reflexivity.
Qed.

(** Induction on an error and on the errors it wraps. *)
Lemma errval_wrap_ind (P : errval -> Prop) :
  (forall p s, P (errorString p s)) ->
  (forall p msg, P (wrapError p msg None)) ->
  (forall p msg e, P e -> P (wrapError p msg (Some e))) ->
  (forall p msg errs, Forall P errs -> P (wrapErrors p msg errs)) ->
  (forall p v, P (ptrNotFoundError p v)) ->
  (forall p op path e, P e -> P (PathError p op path e)) ->
  (forall e, P (Errno e)) ->
  forall e, P e.
Proof.
  intros Hs Hn Hw Hm Hf Hp He.
  fix IH 1.
  intros [p s | p msg [e|] | p msg errs | p v | p op path e | e].
  - apply Hs.
  - apply Hw, IH.
  - apply Hn.
  - apply Hm. induction errs as [|x l IHl]; constructor; [apply IH | exact IHl].
  - apply Hf.
  - apply Hp, IH.
  - apply He.
Qed.

(** [errors.Is] answers by the walk: it is true exactly when some error
    of the walk is the target or has an [Is] method that accepts it. *)
Lemma is_walk (t e : errval) :
  is_ e t
  = existsb (fun x => errval_eqb x t || method_Is x t) (walk e).
Proof.
  induction e using errval_wrap_ind; simpl;
    rewrite ?orb_false_r; try reflexivity.
  - rewrite IHe. reflexivity.
  - f_equal. rewrite existsb_flat_map.
    induction H as [|x l Hx _ IHl]; simpl; [reflexivity|].
    rewrite Hx, IHl. reflexivity.
  - rewrite IHe. reflexivity.
Qed.

Lemma find_append {A} (p : A -> bool) (l l' : list A) :
  find p (l ++ l')%list
  = match find p l with Some x => Some x | None => find p l' end.
Proof.
  induction l as [|a l IH]; simpl; [reflexivity|].
  destruct (p a); [reflexivity | exact IH].
Qed.

(** [errors.As] returns the first error of the walk that has the type of
    the target. *)
Lemma as_walk (T : rtype) (e : errval) :
  as_ e T = find (fun x => rtype_eqb (TypeOf x) T) (walk e).
Proof.
  induction e using errval_wrap_ind; cbn [as_ walk find];
    try (destruct (rtype_eqb _ T); reflexivity).
  - destruct (rtype_eqb _ T); [reflexivity | exact IHe].
  - destruct (rtype_eqb _ T); [reflexivity|].
    induction H as [|x l Hx _ IHl]; cbn [flat_map find]; [reflexivity|].
    rewrite find_append, <- Hx.
    destruct (as_ x T); [reflexivity | exact IHl].
  - destruct (rtype_eqb _ T); [reflexivity | exact IHe].
Qed.

(** C4.  The error that Demo 6 builds from [err1] and [err2] exposes both
    causes: its [Unwrap] lists them, [errors.Is] finds each, and the walk
    is fixed: the combined error, then [err1], then [err2]. *)
Theorem Demo6_exposes_both_causes_in_order (f : frame) (st : state) :
  exists f' st' first second combined,
    Demo6 f st = (Returns f', st')
    /\ err1 f' = Some first
    /\ err2 f' = Some second
    /\ combinedErr f' = Some combined
    /\ Unwrap_many combined = [first; second]
    /\ walk combined = [combined; first; second]
    /\ Is (combinedErr f') (err1 f') = true
    /\ Is (combinedErr f') (err2 f') = true
    /\ error_eqb (err1 f') (err2 f') = false.
Proof.
  do 5 eexists. split; [apply Demo6_returns|].
  cbn [err1 err2 combinedErr].
  repeat split.
  - unfold Is. rewrite is_walk. cbn. rewrite N.eqb_refl. reflexivity.
  - unfold Is. rewrite is_walk. cbn. rewrite N.eqb_refl, N_eqb_succ.
    reflexivity.
  - cbn. apply N_eqb_succ.
Qed.

(** ** [readFullBuffer] *)

(** A panic of the reader is the panic of [readFullBuffer]. *)
Lemma readFullBuffer_panics {R} `{Reader R} (r : R) (buf : list Byte.byte)
    (st st' : state) (msg : string) :
  Read r buf st = (Panics msg, st') ->
  readFullBuffer r buf st = (Panics msg, st').
Proof. intros E. unfold readFullBuffer, bind. rewrite E. reflexivity. Qed.

(** C6.  For every reader and buffer: when the read reports [io.EOF],
    [readFullBuffer] returns the count with a nil error; when it reports
    anything else (nil included), [readFullBuffer] returns the count and
    that same error, so no failure other than [io.EOF] is dropped. *)
Theorem readFullBuffer_drops_only_EOF {R} `{Reader R} (r r' : R)
    (buf buf' : list Byte.byte) (n : Z) (e : error) (st st' : state) :
  Read r buf st = (Returns (r', buf', (n, e)), st') ->
  exists e',
    readFullBuffer r buf st = (Returns (r', buf', (n, e')), st')
    /\ (error_eqb e (Some EOF) = true -> e' = nil)
    /\ (error_eqb e (Some EOF) = false -> e' = e).
Proof.
  intros E. unfold readFullBuffer, bind. rewrite E.
  destruct (error_eqb e (Some EOF)) eqn:He.
  - exists nil. repeat split. discriminate.
  - exists e. repeat split. discriminate.
Qed.

Lemma readFullBuffer_drops_only_EOF_witness :
  Read (R := list Byte.byte) [] (make 4) initial
  = (Returns ([], make 4, (0%Z, Some EOF)), initial)
  /\ exists e',
      readFullBuffer (R := list Byte.byte) [] (make 4) initial
      = (Returns ([], make 4, (0%Z, e')), initial)
      /\ (error_eqb (Some EOF) (Some EOF) = true -> e' = nil)
      /\ (error_eqb (Some EOF) (Some EOF) = false -> e' = Some EOF).
Proof.
  split; [reflexivity|].
  apply (@readFullBuffer_drops_only_EOF (list Byte.byte) bytes_Reader
           [] [] (make 4) (make 4) 0%Z (Some EOF) initial initial).
  reflexivity.
Defined.

(** An error that only wraps [io.EOF] is not [io.EOF]: it is returned. *)
Example readFullBuffer_wrapped_EOF :
  let e := Some (wrapError 20%N "read: EOF" (Some EOF)) in
  readFullBuffer (mkErrReader e) (make 4) initial
  = (Returns (mkErrReader e, make 4, (0%Z, e)), initial).
Proof. reflexivity. Qed.

(** ** [customOperation] *)

(** When the open fails, [customOperation] returns the error of the open
    wrapped with a message; nothing is read and nothing stays open. *)
Lemma customOperation_open_fails (os : OS) (st : state) (e : errno) :
  open_result os "nonexistent.txt" = Some e ->
  customOperation os st
  = (Returns (Some (wrapError (N.succ (next st))
                      ("could not open file: open nonexistent.txt: "
                       ++ errno_text e)
                      (Some (PathError (next st) "open" "nonexistent.txt"
                               (Errno e))))),
     mkState (N.succ (N.succ (next st))) (stdout st) (open_files st)).
Proof.
  intros E. unfold customOperation, os_Open, bind. rewrite E.
  destruct e; reflexivity.
Qed.

(** When the open succeeds and the read reports [io.EOF], the check of the
    message runs on the text of [io.EOF] and [customOperation] returns
    nil. *)
Lemma customOperation_read_EOF (os : OS) (st : state) :
  open_result os "nonexistent.txt" = None ->
  read_result os "nonexistent.txt" = ReadEOF ->
  customOperation os st = (Returns nil, st).
Proof.
  intros E1 E2.
  unfold customOperation, os_Open, File_Read, defer, bind.
  rewrite E1. cbn. rewrite E2. destruct st; reflexivity.
Qed.

(** When the open succeeds and the read reports no error, the call of
    [Error] on the nil error panics; the deferred [Close] has run. *)
Lemma customOperation_read_data (os : OS) (st : state) (n : Z) :
  open_result os "nonexistent.txt" = None ->
  read_result os "nonexistent.txt" = ReadData n ->
  customOperation os st = (Panics nil_dereference, st).
Proof.
  intros E1 E2.
  unfold customOperation, os_Open, File_Read, defer, bind.
  rewrite E1. cbn. rewrite E2. destruct st; reflexivity.
Qed.

(** When the open succeeds and the read fails, the failure is returned,
    wrapped, before the check of the message. *)
Lemma customOperation_read_fails (os : OS) (st : state) (e : errno) :
  open_result os "nonexistent.txt" = None ->
  read_result os "nonexistent.txt" = ReadError e ->
  customOperation os st
  = (Returns (Some (wrapError (N.succ (next st))
                      ("could not read file: read nonexistent.txt: "
                       ++ errno_text e)
                      (Some (PathError (next st) "read" "nonexistent.txt"
                               (Errno e))))),
     mkState (N.succ (N.succ (next st))) (stdout st) (open_files st)).
Proof.
  intros E1 E2.
  unfold customOperation, os_Open, File_Read, defer, bind.
  rewrite E1. cbn. rewrite E2. destruct e; reflexivity.
Qed.

(** C10.  In [customOperation] the check of the message calls [Error] on
    the error of the read with no nil guard.  Once the open has succeeded:
    a read that reports no error makes the function panic on the nil
    dereference; a read that reports [io.EOF] passes the check and the
    function returns nil; any other read failure is returned before the
    check.  So the function panics exactly when the read succeeds without
    [io.EOF]. *)
Theorem customOperation_panics_on_nil_read_error (os : OS) (st : state) :
  open_result os "nonexistent.txt" = None ->
  match read_result os "nonexistent.txt" with
  | ReadData _ => customOperation os st = (Panics nil_dereference, st)
  | ReadEOF =>
      customOperation os st = (Returns nil, st)
      /\ Contains (Error EOF) "permission denied" = false
  | ReadError _ =>
      exists w st', customOperation os st = (Returns (Some w), st')
  end
  /\ ((exists msg st', customOperation os st = (Panics msg, st'))
      <-> (exists n, read_result os "nonexistent.txt" = ReadData n)).
Proof.
  intros E1.
  destruct (read_result os "nonexistent.txt") as [n | | e] eqn:E2.
  - split; [eapply customOperation_read_data; eassumption|].
    split; [intros _; exists n; reflexivity|].
    intros _. do 2 eexists. eapply customOperation_read_data; eassumption.
  - split; [split; [apply customOperation_read_EOF; assumption|reflexivity]|].
    split.
    + intros (msg & st' & E).
      rewrite (customOperation_read_EOF os st E1 E2) in E. discriminate E.
    + intros (n & E). discriminate E.
  - split; [do 2 eexists; eapply customOperation_read_fails; eassumption|].
    split.
    + intros (msg & st' & E).
      rewrite (customOperation_read_fails os st E1 E2) in E. discriminate E.
    + intros (n & E). discriminate E.
Qed.

Lemma customOperation_panics_on_nil_read_error_witness :
  open_result os_with_data "nonexistent.txt" = None
  /\ customOperation os_with_data initial = (Panics nil_dereference, initial).
Proof.
  split; [reflexivity|].
  exact (proj1 (customOperation_panics_on_nil_read_error
                  os_with_data initial eq_refl)).
Defined.

(** ** The whole run *)

(** What Demo 8 does when the open fails: one line, the error of
    [customOperation]. *)
Lemma Demo8_open_fails (os : OS) (f : frame) (st : state) (e : errno) :
  open_result os "nonexistent.txt" = Some e ->
  Demo8 os f st
  = (Returns f,
     mkState (N.succ (N.succ (next st)))
             (stdout st
              ++ [line ("Custom operation failed: could not open file: "
                        ++ "open nonexistent.txt: " ++ errno_text e)])%list
             (open_files st)).
Proof.
  intros E. unfold Demo8, bind.
  rewrite (customOperation_open_fails os st E).
  destruct e; reflexivity.
Qed.

(** Running two lists of demonstrations one after the other. *)
Lemma run_app (a b : list (nat * (frame -> M frame))) (f : frame)
    (st : state) :
  run (a ++ b) f st = (f' <- run a f ;; run b f') st.
Proof.
  revert f st. induction a as [|[k d] a IH]; intros f st; simpl.
  - reflexivity.
  - unfold bind. destruct (d f st) as [[f' | msg |] st1];
      [|reflexivity|reflexivity].
    rewrite IH. reflexivity.
Qed.

(** The first seven demonstrations do not depend on the environment:
    eight allocations and ten lines. *)
Lemma first_seven_demos (os : OS) (st : state) :
  exists f,
    run (firstn 7 (demos os)) zero_frame st
    = (Returns f,
       mkState (N.succ (N.succ (N.succ (N.succ (N.succ (N.succ (N.succ
                  (N.succ (next st)))))))))
               (stdout st ++ firstn 10 (lines_of_main ENOENT))%list
               (open_files st)).
Proof. eexists. go_run. Qed.

(** The run of [main] when the open fails. *)
Lemma main_open_fails (os : OS) (st : state) (e : errno) :
  open_result os "nonexistent.txt" = Some e ->
  exists f st',
    main os st = (Returns f, st')
    /\ stdout st' = (stdout st ++ lines_of_main e)%list
    /\ open_files st' = open_files st.
Proof.
  intros E. unfold main.
  change (demos os) with (firstn 7 (demos os) ++ [(8, Demo8 os)])%list.
  rewrite run_app. unfold bind at 1.
  destruct (first_seven_demos os st) as [f ->].
  cbn [run]. unfold bind at 1. rewrite (Demo8_open_fails os f _ E).
  do 2 eexists. split; [reflexivity|]. cbn [stdout open_files].
  split; [|reflexivity].
  rewrite <- app_assoc. reflexivity.
Qed.

(** The outcomes of the eight demonstrations when the open fails. *)
Lemma outcomes_open_fails (os : OS) (st : state) (e : errno) :
  open_result os "nonexistent.txt" = Some e ->
  outcomes (demos os) zero_frame st
  = [(1, [line "Invalid input detected";
          line "Invalid input detected (correctly checked)"]);
     (2, [line "Not found error: document";
          line "Not found error (correctly checked): document"]);
     (3, [line "Unknown error"]);
     (4, [line "Other error type"]);
     (5, [line "operation failed: input validation failed";
          line "operation failed: input validation failed"]);
     (6, [line "multiple errors: first error and second error"]);
     (7, [line "No rows found"]);
     (8, [line ("Custom operation failed: could not open file: "
                ++ "open nonexistent.txt: " ++ errno_text e)])]%nat.
Proof.
  intros E. cbn. rewrite (Demo8_open_fails os _ _ E). reflexivity.
Qed.

(** C9.  Two runs of [main] in which the open of [nonexistent.txt] fails
    in the same way, in particular two runs in which the file does not
    exist, write the same lines and exit with the same status, whatever
    addresses the allocator hands out and whatever else the file system
    would answer. *)
Theorem main_deterministic (os1 os2 : OS) (st1 st2 : state) (e : errno) :
  open_result os1 "nonexistent.txt" = Some e ->
  open_result os2 "nonexistent.txt" = Some e ->
  stdout st1 = stdout st2 ->
  stdout (snd (main os1 st1)) = stdout (snd (main os2 st2))
  /\ exit_status (fst (main os1 st1)) = exit_status (fst (main os2 st2)).
Proof.
  intros E1 E2 Hout.
  destruct (main_open_fails os1 st1 E1) as (f1 & st1' & Hm1 & Ho1 & _).
  destruct (main_open_fails os2 st2 E2) as (f2 & st2' & Hm2 & Ho2 & _).
  rewrite Hm1, Hm2. cbn [fst snd exit_status].
  rewrite Ho1, Ho2, Hout. split; reflexivity.
Qed.

Lemma main_deterministic_witness :
  open_result os_absent "nonexistent.txt" = Some ENOENT
  /\ open_result os_absent' "nonexistent.txt" = Some ENOENT
  /\ stdout (snd (main os_absent initial))
     = stdout (snd (main os_absent' (mkState 1000%N [] ["other.txt"]))).
Proof.
  split; [reflexivity|]. split; [reflexivity|].
  exact (proj1 (main_deterministic os_absent os_absent' initial
                  (mkState 1000%N [] ["other.txt"])
                  eq_refl eq_refl eq_refl)).
Defined.

(** The lines of a run in a directory without [nonexistent.txt]. *)
Example main_os_absent :
  stdout (snd (main os_absent initial)) = lines_of_main ENOENT
  /\ exit_status (fst (main os_absent initial)) = Some 0%Z.
Proof. split; reflexivity. Qed.

(** With a non-empty [nonexistent.txt] the run ends in the panic of
    Demo 8, after the lines of the first seven demonstrations. *)
Example main_os_with_data :
  main os_with_data initial
  = (Panics nil_dereference,
     mkState 18%N (firstn 10 (lines_of_main ENOENT)) [])
  /\ exit_status (fst (main os_with_data initial)) = Some 2%Z.
Proof. split; reflexivity. Qed.

(** With an empty [nonexistent.txt] Demo 8 writes nothing. *)
Example main_os_empty_file :
  stdout (snd (main os_empty_file initial))
  = firstn 10 (lines_of_main ENOENT)
  /\ exit_status (fst (main os_empty_file initial)) = Some 0%Z.
Proof. split; reflexivity. Qed.

(** ** The outcomes and the output, in every environment *)

(** Demo 8 appends its lines to what was written before; the lines depend
    on the file system only, and no file stays open. *)
Lemma Demo8_writes (os : OS) (f : frame) (n : addr)
    (out files : list string) :
  exists r n',
    Demo8 os f (mkState n out files)
    = (r, mkState n' (out ++ lines_of_Demo8 os)%list files).
Proof.
  unfold lines_of_Demo8, Demo8, bind.
  destruct (open_result os "nonexistent.txt") as [e|] eqn:E1.
  - rewrite (customOperation_open_fails os _ E1).
    do 2 eexists. destruct e; reflexivity.
  - destruct (read_result os "nonexistent.txt") as [k | | e] eqn:E2.
    + rewrite (customOperation_read_data os _ E1 E2).
      do 2 eexists. rewrite app_nil_r. reflexivity.
    + rewrite (customOperation_read_EOF os _ E1 E2).
      do 2 eexists. cbn. rewrite app_nil_r. reflexivity.
    + rewrite (customOperation_read_fails os _ E1 E2).
      do 2 eexists. destruct e; reflexivity.
Qed.

(** In every environment, what [main] writes is the outcomes of its
    demonstrations one after the other. *)
Lemma main_stdout_outcomes (os : OS) (st : state) :
  stdout (snd (main os st))
  = (stdout st ++ concat (map snd (outcomes (demos os) zero_frame st)))%list.
Proof.
  unfold main.
  change (demos os) with (firstn 7 (demos os) ++ [(8, Demo8 os)])%list
    at 1.
  rewrite run_app. unfold bind at 1.
  destruct (first_seven_demos os st) as [f ->].
  cbn [run]. unfold bind at 1.
  destruct (Demo8_writes os f
              (N.succ (N.succ (N.succ (N.succ (N.succ (N.succ
                 (N.succ (N.succ (next st)))))))))
              (stdout st ++ firstn 10 (lines_of_main ENOENT))
              (open_files st))
    as (r & n & ->).
  cbn.
  match goal with
  | |- context [Demo8 os ?f0 (mkState ?n0 ?o0 ?fs0)] =>
      destruct (Demo8_writes os f0 n0 o0 fs0) as (r' & n' & ->)
  end.
  destruct r, r'; cbn; rewrite ?app_nil_r, <- ?app_assoc; reflexivity.
Qed.

(** * Further properties of [main.go] *)

(** ** The message of a [NotFoundError] *)

Lemma length_append (s t : string) :
  String.length (s ++ t) = String.length s + String.length t.
Proof. induction s as [|c s IH]; simpl; [reflexivity | rewrite IH; reflexivity]. Qed.

Lemma append_inv_tail (x y s : string) : x ++ s = y ++ s -> x = y.
Proof.
  revert y. induction x as [|c x IH]; intros [|d y] E; simpl in E.
  - reflexivity.
  - apply (f_equal String.length) in E. simpl in E.
    rewrite length_append in E. lia.
  - apply (f_equal String.length) in E. simpl in E.
    rewrite length_append in E. lia.
  - injection E as -> E. f_equal. apply IH, E.
Qed.

(** X1.  The [Error] method of [*NotFoundError] (main.go:17) gives the item
    followed by [" not found"], whatever characters the item holds (it is an
    operand of [Sprintf], not part of the format); so two such errors have
    the same message exactly when they carry the same item. *)
Theorem NotFoundError_message (p q : addr) (x y : string) :
  Sprintf "%s not found" [OStr x] = Some (x ++ " not found")
  /\ Error (ptrNotFoundError p (mkNotFoundError x)) = x ++ " not found"
  /\ (Error (ptrNotFoundError p (mkNotFoundError x))
      = Error (ptrNotFoundError q (mkNotFoundError y))
      <-> x = y).
Proof.
  split; [reflexivity|]. split; [reflexivity|].
  rewrite !NotFoundError_Error. split.
  - apply append_inv_tail.
  - intros ->. reflexivity.
Qed.

(** ** Fresh errors *)

Lemma N_eqb_succ_l (n : N) : N.eqb (N.succ n) n = false.
Proof. apply N.eqb_neq. lia. Qed.

(** X2.  Every call of [findItem] (main.go:43) allocates: two calls one
    after the other, with the same item or not, return errors that are not
    identical, and [errors.Is] finds neither in the other; the type
    assertion to [*NotFoundError] succeeds on each and gives the pointer
    that [errors.As] gives. *)
Theorem findItem_allocates (x y : string) (st : state) :
  exists e1 e2 st1 st2,
    findItem x st = (Returns e1, st1)
    /\ findItem y st1 = (Returns e2, st2)
    /\ error_eqb e1 e2 = false
    /\ Is e1 e2 = false
    /\ Is e2 e1 = false
    /\ assert_NotFoundError e1 = As_NotFoundError e1 nil
    /\ assert_NotFoundError e2 = As_NotFoundError e2 nil
    /\ snd (assert_NotFoundError e1) = true.
Proof.
  do 4 eexists. split; [reflexivity|]. split; [reflexivity|].
  cbn. rewrite N_eqb_succ, N_eqb_succ_l. repeat split.
Qed.

(** X3.  [processData] (main.go:33) never returns nil, so its last line is
    never reached; every call builds a new wrapper: two calls return errors
    that are not identical and are not found in each other by [errors.Is],
    while both unwrap to the one sentinel [ErrInvalidInput]. *)
Theorem processData_allocates (st : state) :
  exists e1 e2 st1 st2,
    processData st = (Returns (Some e1), st1)
    /\ processData st1 = (Returns (Some e2), st2)
    /\ errval_eqb e1 e2 = false
    /\ is_ e1 e2 = false
    /\ is_ e2 e1 = false
    /\ Unwrap (Some e1) = Some ErrInvalidInput
    /\ Unwrap (Some e2) = Some ErrInvalidInput
    /\ Error e1 = Error e2.
Proof.
  do 4 eexists. split; [apply processData_returns|].
  split; [apply processData_returns|].
  cbn. rewrite N_eqb_succ, N_eqb_succ_l. repeat split.
Qed.

(** ** The type switch of Demo 4 *)

(** X4.  For every value of [err] that is nil or a non-nil error of the
    program's types (a nil [*NotFoundError] held in the interface is not a
    value of the model: there the case matches and [e.Item] panics), Demo 4
    (main.go:100) writes exactly one line and changes nothing else.  The
    line names the item when [err] is a non-nil [*NotFoundError];
    otherwise, the nil interface included, it is the other-error line.  An
    error that only wraps a [*NotFoundError] gets the other-error line too,
    although [errors.As] recovers the [*NotFoundError] from it. *)
Theorem Demo4_type_switch (f : frame) (st : state) :
  exists l,
    Demo4 f st
    = (Returns f, mkState (next st) (stdout st ++ [l])%list (open_files st))
    /\ (forall p v, err f = Some (ptrNotFoundError p v) ->
        l = line ("Not found: " ++ Item v))
    /\ ((forall p v, err f <> Some (ptrNotFoundError p v)) ->
        l = line "Other error type")
    /\ (forall p msg q v,
           err f = Some (wrapError p msg (Some (ptrNotFoundError q v))) ->
           l = line "Other error type"
           /\ As (err f) T_NotFoundError = Some (ptrNotFoundError q v)).
Proof.
  unfold Demo4.
  destruct (err f) as [[p s | p msg c | p msg errs | p v | p op path c | e]|];
    try (exists (line "Other error type");
         split; [reflexivity|];
         split; [intros ? ? E; discriminate E|];
         split; [reflexivity|];
         intros ? ? ? ? E; try discriminate E;
         injection E as -> -> ->; split; reflexivity).
  exists (line ("Not found: " ++ Item v)).
  split; [reflexivity|].
  split; [intros ? ? E; injection E as -> ->; reflexivity|].
  split; [intros H; exfalso; apply (H p v); reflexivity|].
  intros ? ? ? ? E; discriminate E.
Qed.

(** ** More on [readFullBuffer] *)

(** X5.  [readFullBuffer] (main.go:48) never hands [io.EOF] to its caller:
    whatever the reader does, an error it returns is not identical to
    [io.EOF]. *)
Theorem readFullBuffer_never_returns_EOF {R} `{Reader R} (r r' : R)
    (buf buf' : list Byte.byte) (n : Z) (e : error) (st st' : state) :
  readFullBuffer r buf st = (Returns (r', buf', (n, e)), st') ->
  error_eqb e (Some EOF) = false.
Proof.
  unfold readFullBuffer, bind.
  destruct (Read r buf st) as [[[[r0 b0] [n0 e0]] | msg |] st0];
    try discriminate.
  destruct (error_eqb e0 (Some EOF)) eqn:E0; intros E;
    injection E as _ _ _ <- _; [reflexivity | exact E0].
Qed.

Lemma readFullBuffer_never_returns_EOF_witness :
  readFullBuffer (R := list Byte.byte) [] (make 4) initial
  = (Returns ([], make 4, (0%Z, nil)), initial)
  /\ error_eqb nil (Some EOF) = false.
Proof.
  split; [reflexivity|].
  apply (@readFullBuffer_never_returns_EOF (list Byte.byte) bytes_Reader
           [] [] (make 4) (make 4) 0%Z nil initial initial).
  reflexivity.
Defined.

(** X6.  [readFullBuffer] tests the error by identity, not by
    [errors.Is]: when the reader reports an error that wraps [io.EOF], the
    result is that error, not nil, although [errors.Is] finds [io.EOF] in
    it. *)
Theorem readFullBuffer_keeps_wrapped_EOF {R} `{Reader R} (r r' : R)
    (buf buf' : list Byte.byte) (n : Z) (p : addr) (msg : string)
    (st st' : state) :
  let e := Some (wrapError p msg (Some EOF)) in
  Read r buf st = (Returns (r', buf', (n, e)), st') ->
  readFullBuffer r buf st = (Returns (r', buf', (n, e)), st')
  /\ Is e (Some EOF) = true
  /\ e <> nil.
Proof.
  intros e E. unfold readFullBuffer, bind. rewrite E.
  repeat split. discriminate.
Qed.

Lemma readFullBuffer_keeps_wrapped_EOF_witness :
  let e := Some (wrapError 20%N "read: EOF" (Some EOF)) in
  Read (mkErrReader e) (make 4) initial
  = (Returns (mkErrReader e, make 4, (0%Z, e)), initial)
  /\ readFullBuffer (mkErrReader e) (make 4) initial
     = (Returns (mkErrReader e, make 4, (0%Z, e)), initial).
Proof.
  intros e. split; [reflexivity|].
  exact (proj1 (@readFullBuffer_keeps_wrapped_EOF ErrReader ErrReader_Reader
                  (mkErrReader e) (mkErrReader e) (make 4) (make 4) 0%Z
                  20%N "read: EOF" initial initial eq_refl)).
Defined.

(** ** More on [customOperation] *)

(** X7.  [customOperation] (main.go:150) writes nothing and leaves no file
    open: in every environment, on every way out (the early returns, the
    normal return and the panic), the files open afterwards are the files
    that were open before. *)
Theorem customOperation_closes_the_file (os : OS) (st : state) :
  open_files (snd (customOperation os st)) = open_files st
  /\ stdout (snd (customOperation os st)) = stdout st.
Proof.
  destruct (open_result os "nonexistent.txt") as [e|] eqn:E1.
  - rewrite (customOperation_open_fails os st E1). split; reflexivity.
  - destruct (read_result os "nonexistent.txt") as [k | | e] eqn:E2.
    + rewrite (customOperation_read_data os st E1 E2). split; reflexivity.
    + rewrite (customOperation_read_EOF os st E1 E2). split; reflexivity.
    + rewrite (customOperation_read_fails os st E1 E2). split; reflexivity.
Qed.

(** X8.  What [customOperation] can give, in every environment: nil; the
    panic of the nil dereference; or an error whose message starts with
    ["could not open file: "] or ["could not read file: "].  It never gives
    the error of main.go:167 (["permission issue: ..."]): a read that fails
    with "permission denied" has already been returned by main.go:162. *)
Theorem customOperation_results (os : OS) (st : state) :
  match fst (customOperation os st) with
  | Returns None =>
      open_result os "nonexistent.txt" = None
      /\ read_result os "nonexistent.txt" = ReadEOF
  | Returns (Some e) =>
      (HasPrefix (Error e) "could not open file: " = true
       \/ HasPrefix (Error e) "could not read file: " = true)
      /\ HasPrefix (Error e) "permission issue: " = false
  | Panics msg => msg = nil_dereference
  | Unmodelled => False
  end.
Proof.
  destruct (open_result os "nonexistent.txt") as [e|] eqn:E1.
  - rewrite (customOperation_open_fails os st E1). cbn.
    split; [left|]; reflexivity.
  - destruct (read_result os "nonexistent.txt") as [k | | e] eqn:E2.
    + rewrite (customOperation_read_data os st E1 E2). reflexivity.
    + rewrite (customOperation_read_EOF os st E1 E2). split; reflexivity.
    + rewrite (customOperation_read_fails os st E1 E2). cbn.
      split; [right|]; reflexivity.
Qed.

(** X9.  When the open fails, the error of [customOperation] keeps its
    cause reachable: [errors.As] recovers the [*fs.PathError] of the open,
    with its operation and path, and [errors.Is] finds [ErrNotExist]
    exactly when the file does not exist and [ErrPermission] exactly when
    access was refused. *)
Theorem customOperation_open_error_traversal (os : OS) (st : state)
    (e : errno) :
  open_result os "nonexistent.txt" = Some e ->
  exists w st',
    customOperation os st = (Returns (Some w), st')
    /\ As (Some w) T_PathError
       = Some (PathError (next st) "open" "nonexistent.txt" (Errno e))
    /\ walk w
       = [w; PathError (next st) "open" "nonexistent.txt" (Errno e); Errno e]
    /\ Is (Some w) (Some ErrNotExist) = errno_eqb e ENOENT
    /\ Is (Some w) (Some ErrPermission)
       = (errno_eqb e EACCES || errno_eqb e EPERM)
    /\ Is (Some w) (Some (Errno e)) = true.
Proof.
  intros E. do 2 eexists.
  split; [apply (customOperation_open_fails os st E)|].
  split; [reflexivity|]. split; [reflexivity|].
  repeat split; destruct e; reflexivity.
Qed.

Lemma customOperation_open_error_traversal_witness :
  open_result os_absent "nonexistent.txt" = Some ENOENT
  /\ exists w st',
      customOperation os_absent initial = (Returns (Some w), st')
      /\ As (Some w) T_PathError
         = Some (PathError (next initial) "open" "nonexistent.txt"
                   (Errno ENOENT))
      /\ walk w
         = [w; PathError (next initial) "open" "nonexistent.txt"
                 (Errno ENOENT); Errno ENOENT]
      /\ Is (Some w) (Some ErrNotExist) = errno_eqb ENOENT ENOENT
      /\ Is (Some w) (Some ErrPermission)
         = (errno_eqb ENOENT EACCES || errno_eqb ENOENT EPERM)
      /\ Is (Some w) (Some (Errno ENOENT)) = true.
Proof.
  split; [reflexivity|].
  exact (customOperation_open_error_traversal os_absent initial eq_refl).
Defined.

(** ** The run of [main] in every environment *)

(** How Demo 8 ends and what it writes, by what the file system answers. *)
Lemma Demo8_result (os : OS) (f : frame) (n : addr)
    (out files : list string) :
  exists n',
    Demo8 os f (mkState n out files)
    = (match open_result os "nonexistent.txt",
             read_result os "nonexistent.txt" with
       | None, ReadData _ => Panics nil_dereference
       | _, _ => Returns f
       end,
       mkState n' (out ++ lines_of_Demo8 os)%list files).
Proof.
  unfold lines_of_Demo8, Demo8, bind.
  destruct (open_result os "nonexistent.txt") as [e|] eqn:E1.
  - rewrite (customOperation_open_fails os _ E1).
    eexists. destruct e; reflexivity.
  - destruct (read_result os "nonexistent.txt") as [k | | e] eqn:E2.
    + rewrite (customOperation_read_data os _ E1 E2).
      eexists. rewrite app_nil_r. reflexivity.
    + rewrite (customOperation_read_EOF os _ E1 E2).
      eexists. cbn. rewrite app_nil_r. reflexivity.
    + rewrite (customOperation_read_fails os _ E1 E2).
      eexists. destruct e; reflexivity.
Qed.

(** The run of [main]: the first seven demonstrations, then Demo 8. *)
Lemma main_run (os : OS) (st : state) :
  exists f n,
    main os st
    = (match open_result os "nonexistent.txt",
             read_result os "nonexistent.txt" with
       | None, ReadData _ => Panics nil_dereference
       | _, _ => Returns f
       end,
       mkState n
               ((stdout st ++ firstn 10 (lines_of_main ENOENT))
                ++ lines_of_Demo8 os)%list
               (open_files st)).
Proof.
  unfold main.
  change (demos os) with (firstn 7 (demos os) ++ [(8, Demo8 os)])%list.
  rewrite run_app. unfold bind at 1.
  destruct (first_seven_demos os st) as [f ->].
  cbn [run]. unfold bind at 1.
  destruct (Demo8_result os f
              (N.succ (N.succ (N.succ (N.succ (N.succ (N.succ
                 (N.succ (N.succ (next st)))))))))
              (stdout st ++ firstn 10 (lines_of_main ENOENT))
              (open_files st))
    as (n & ->).
  exists f, n.
  destruct (open_result os "nonexistent.txt");
    destruct (read_result os "nonexistent.txt"); reflexivity.
Qed.

(** X10.  In every environment and from every state, [main] writes the
    same ten lines for Demos 1 to 7 and then the lines of Demo 8, which
    alone depend on the file system: one line when [customOperation]
    returned an error, none when it returned nil or panicked.  No file is
    left open. *)
Theorem main_output_in_every_environment (os : OS) (st : state) :
  stdout (snd (main os st))
  = (stdout st ++ firstn 10 (lines_of_main ENOENT) ++ lines_of_Demo8 os)%list
  /\ (length (lines_of_Demo8 os) <= 1)%nat
  /\ open_files (snd (main os st)) = open_files st.
Proof.
  destruct (main_run os st) as (f & n & ->). cbn [snd stdout open_files].
  split; [symmetry; apply app_assoc|]. split; [|reflexivity].
  unfold lines_of_Demo8.
  destruct (open_result os "nonexistent.txt");
    [|destruct (read_result os "nonexistent.txt")]; simpl; lia.
Qed.

(** X11.  [main] ends in a panic, so that the process exits with status 2,
    exactly when [nonexistent.txt] opens and its read returns data with no
    error; in every other environment [main] returns and the status
    is 0. *)
Theorem main_exit_status (os : OS) (st : state) :
  (fst (main os st) = Panics nil_dereference
   <-> open_result os "nonexistent.txt" = None
       /\ exists n, read_result os "nonexistent.txt" = ReadData n)
  /\ exit_status (fst (main os st))
     = match open_result os "nonexistent.txt",
             read_result os "nonexistent.txt" with
       | None, ReadData _ => Some 2%Z
       | _, _ => Some 0%Z
       end.
Proof.
  destruct (main_run os st) as (f & n & ->). cbn [fst].
  destruct (open_result os "nonexistent.txt") as [e|];
    [|destruct (read_result os "nonexistent.txt") as [k | | e]];
    (split; [split|reflexivity]);
    try (intros E; discriminate E);
    try (intros [E _]; discriminate E);
    try (intros [_ [k' E]]; discriminate E).
  - intros _. split; [reflexivity | exists k; reflexivity].
  - intros _. reflexivity.
Qed.

(** ** The read failure of [customOperation] *)

(** X12.  When the file opens and its read fails, [customOperation]
    returns the failure wrapped by main.go:162, with the file closed:
    [errors.As] recovers the [*fs.PathError] of the read, and [errors.Is]
    finds [ErrPermission] exactly when the read was refused.  The message
    then holds "permission denied", yet the test of main.go:166 is never
    made on it: the message starts with ["could not read file: "]. *)
Theorem customOperation_read_error_traversal (os : OS) (st : state)
    (e : errno) :
  open_result os "nonexistent.txt" = None ->
  read_result os "nonexistent.txt" = ReadError e ->
  exists w st',
    customOperation os st = (Returns (Some w), st')
    /\ open_files st' = open_files st
    /\ As (Some w) T_PathError
       = Some (PathError (next st) "read" "nonexistent.txt" (Errno e))
    /\ Is (Some w) (Some ErrPermission)
       = (errno_eqb e EACCES || errno_eqb e EPERM)
    /\ Contains (Error w) "permission denied" = errno_eqb e EACCES
    /\ HasPrefix (Error w) "could not read file: " = true.
Proof.
  intros E1 E2. do 2 eexists.
  split; [apply (customOperation_read_fails os st E1 E2)|].
  repeat split; destruct e; reflexivity.
Qed.

Lemma customOperation_read_error_traversal_witness :
  open_result os_unreadable "nonexistent.txt" = None
  /\ read_result os_unreadable "nonexistent.txt" = ReadError EACCES
  /\ exists w st',
      customOperation os_unreadable initial = (Returns (Some w), st')
      /\ open_files st' = open_files initial
      /\ As (Some w) T_PathError
         = Some (PathError (next initial) "read" "nonexistent.txt"
                   (Errno EACCES))
      /\ Is (Some w) (Some ErrPermission)
         = (errno_eqb EACCES EACCES || errno_eqb EACCES EPERM)
      /\ Contains (Error w) "permission denied" = errno_eqb EACCES EACCES
      /\ HasPrefix (Error w) "could not read file: " = true.
Proof.
  split; [reflexivity|]. split; [reflexivity|].
  exact (customOperation_read_error_traversal os_unreadable initial
           eq_refl eq_refl).
Defined.

(** ** The eight outcomes *)

(** In every environment the outcomes of [main] are those of Demos 1 to 7,
    always the same, and then what Demo 8 wrote. *)
Lemma outcomes_in_every_environment (os : OS) (st : state) :
  outcomes (demos os) zero_frame st
  = (outcomes_of_Demos_1_to_7 ++ [(8%nat, lines_of_Demo8 os)])%list.
Proof.
  cbn.
  match goal with
  | |- context [Demo8 os ?f0 (mkState ?n0 ?o0 ?fs0)] =>
      destruct (Demo8_result os f0 n0 o0 fs0) as (n' & ->)
  end.
  destruct (open_result os "nonexistent.txt");
    [|destruct (read_result os "nonexistent.txt")]; reflexivity.
Qed.

(** When [customOperation] returns an error, Demo 8 writes one line: the
    message of that error after the words of main.go:137. *)
Lemma lines_of_Demo8_on_failure (os : OS) (st0 st0' : state) (w : errval) :
  customOperation os st0 = (Returns (Some w), st0') ->
  lines_of_Demo8 os = [line ("Custom operation failed: " ++ Error w)]
  /\ forall st, exists f st', main os st = (Returns f, st').
Proof.
  intros H. unfold lines_of_Demo8.
  assert (Hmain : forall st, exists f n l,
             main os st
             = (match open_result os "nonexistent.txt",
                      read_result os "nonexistent.txt" with
                | None, ReadData _ => Panics nil_dereference
                | _, _ => Returns f
                end, mkState n l (open_files st))).
  { intros st. destruct (main_run os st) as (f & n & E).
    exists f, n. eexists. exact E. }
  destruct (open_result os "nonexistent.txt") as [e|] eqn:E1.
  - rewrite (customOperation_open_fails os st0 E1) in H.
    injection H as <- _. split; [destruct e; reflexivity|].
    intros st. destruct (Hmain st) as (f & n & l & ->). eauto.
  - destruct (read_result os "nonexistent.txt") as [k | | e] eqn:E2.
    + rewrite (customOperation_read_data os st0 E1 E2) in H. discriminate H.
    + rewrite (customOperation_read_EOF os st0 E1 E2) in H. discriminate H.
    + rewrite (customOperation_read_fails os st0 E1 E2) in H.
      injection H as <- _. split; [destruct e; reflexivity|].
      intros st. destruct (Hmain st) as (f & n & l & ->). eauto.
Qed.

(** C8 (as amended).  In an environment where [customOperation] returns an
    error (the open of [nonexistent.txt] fails, as it does when the file
    does not exist, or the file opens and its read fails), a run of [main]
    from any state produces exactly eight outcomes, one for each
    demonstration, numbered 1 to 8 in this order and each with text: the
    seven fixed outcomes of Demos 1 to 7 and the line of Demo 8 that
    carries the message of the error.  They are what [main] writes, [main]
    returns, and the exit status is 0. *)
Theorem main_eight_outcomes_when_customOperation_fails (os : OS)
    (st st0 st0' : state) (w : errval) :
  customOperation os st0 = (Returns (Some w), st0') ->
  outcomes (demos os) zero_frame st
  = (outcomes_of_Demos_1_to_7
     ++ [(8%nat, [line ("Custom operation failed: " ++ Error w)])])%list
  /\ eight_outcomes_exit_0 os st
  /\ exists f st', main os st = (Returns f, st').
Proof.
  intros H.
  destruct (lines_of_Demo8_on_failure os st0 H) as [HL Hret].
  assert (Hout : outcomes (demos os) zero_frame st
                 = (outcomes_of_Demos_1_to_7
                    ++ [(8%nat, [line ("Custom operation failed: "
                                       ++ Error w)])])%list)
    by (rewrite outcomes_in_every_environment, HL; reflexivity).
  split; [exact Hout|]. split; [|apply Hret].
  unfold eight_outcomes_exit_0. cbv zeta.
  split; [rewrite Hout; reflexivity|].
  split; [rewrite Hout; repeat constructor; cbn; discriminate|].
  split; [apply main_stdout_outcomes|].
  destruct (Hret st) as (f & st' & ->). reflexivity.
Qed.

Lemma main_eight_outcomes_when_customOperation_fails_witness :
  customOperation os_absent initial
  = (Returns (Some (wrapError 11%N
                      ("could not open file: "
                       ++ "open nonexistent.txt: no such file or directory")
                      (Some (PathError 10%N "open" "nonexistent.txt"
                               (Errno ENOENT))))),
     mkState 12%N [] [])
  /\ outcomes (demos os_absent) zero_frame initial
     = (outcomes_of_Demos_1_to_7
        ++ [(8%nat,
             [line ("Custom operation failed: could not open file: "
                    ++ "open nonexistent.txt: no such file or directory")])])
       %list
  /\ eight_outcomes_exit_0 os_absent initial.
Proof.
  split; [reflexivity|].
  pose proof (main_eight_outcomes_when_customOperation_fails
                os_absent initial initial eq_refl) as [H1 [H2 _]].
  split; [exact H1 | exact H2].
Defined.

(** C8 as the specification states it fails where [nonexistent.txt] exists
    and is empty: [customOperation] returns nil, Demo 8 writes nothing, and
    only seven demonstrations leave an outcome with text, the exit status
    being 0 all the same. *)
Lemma main_seven_outcomes_on_empty_file :
  ~ eight_outcomes_exit_0 os_empty_file initial.
Proof.
  intros (_ & HF & _).
  rewrite outcomes_in_every_environment in HF.
  rewrite Forall_forall in HF.
  apply (HF (8%nat, [])); [|reflexivity].
  apply in_or_app. right. left. reflexivity.
Qed.
